(** * A library catalog behind a GraphQL API: authors, books, batch loaders

    Shallow embedding of [src/models.py] (the SQLAlchemy entities and the
    session factory), [src/app.py] (marshalling, the [Query] and [Mutation]
    resolvers, the two batch functions handed to the data loaders) and
    [src/help.py] (the tutorial variant kept in a module-level list).

    Python objects that may be [None] are [option]s, an exception is the
    [Raised] case of [outcome], and code that talks to the database runs in
    the state-and-exception monad [M] over the tables, the statements
    executed so far and the objects of the running request. *)

From Stdlib Require Import ZArith String Ascii DecimalString.
From Stdlib Require DecimalZ DecimalPos.
From stdpp Require Import base option list strings gmap sorting.

Open Scope string_scope.
Open Scope list_scope.
Open Scope Z_scope.

(** ** Python outcomes *)

(** The exceptions the modelled code can meet. *)
Inductive exn : Type :=
  | TypeError                      (* [with] on an object without [__enter__] *)
  | AttributeError                 (* attribute access on [None] *)
  | ArgumentError                  (* sqlalchemy.exc: [select] of a non-entity *)
  | DBAPIError                     (* sqlalchemy.exc: a parameter the driver cannot bind *)
  | OverflowError                  (* an integer parameter beyond SQLite's 64 bits *)
  | WrongNumberOfResultsReturned (expected received : nat).
                                   (* strawberry.exceptions, raised by the data loader *)

Inductive outcome (A : Type) : Type :=
  | Returned (a : A)
  | Raised (e : exn).
Arguments Returned {A} a.
Arguments Raised {A} e.

#[export] Instance exn_eq_dec : EqDecision exn.
Proof. solve_decision. Defined.

#[export] Instance outcome_ret : MRet outcome := fun _ a => Returned a.
#[export] Instance outcome_bind : MBind outcome := fun _ _ f o =>
  match o with
  | Returned a => f a
  | Raised e => Raised e
  end.
#[export] Instance outcome_fmap : FMap outcome := fun _ _ f o =>
  match o with
  | Returned a => Returned (f a)
  | Raised e => Raised e
  end.

(** Truth value of an object reference: [None] is false, and an entity (no
    [__bool__], no [__len__]) is true. *)
Definition truthy {A : Type} (o : option A) : bool :=
  match o with
  | Some _ => true
  | None => false
  end.

(** Truth value of an [Optional[str]]: [None] and the empty string are false. *)
Definition truthy_str (o : option string) : bool :=
  match o with
  | Some s => negb (String.eqb s "")
  | None => false
  end.

(** [str(v)] for an integer primary key, which is [None] on an object that
    was never flushed. *)
Definition str (v : option Z) : string :=
  match v with
  | Some z => NilZero.string_of_int (Z.to_int z)
  | None => "None"
  end.

(** A context manager says which of the two protocols it implements:
    [__enter__]/[__exit__] for [with], [__aenter__]/[__aexit__] for
    [async with]. *)
Record ContextManager : Type := {
  has_enter : bool;
  has_aenter : bool
}.

(** ** models.py: the entities and the session factory *)

Module models.

Module Author.
(** [class Author(Base)]: the columns [id] and [name]. The [books]
    collection is a relationship no code under [src/] reads. *)
Record t : Type := mk { id : option Z; name : string }.
End Author.

(** What the constructor call [models.Book(..., author_id=v)] can be handed
    for the foreign key: nothing, an integer, or (as [add_book] does) an
    [Author] object. *)
Inductive fk : Type :=
  | FkNone
  | FkInt (z : Z)
  | FkObj.

Module Book.
(** [class Book(Base)]: the columns [id], [name], [author_id] and the
    [author] relationship, loaded with the row ([lazy="joined"]). *)
Record t : Type := mk {
  id : option Z;
  name : string;
  author_id : fk;
  author : option Author.t
}.
End Book.

(** An entity instance, as Python sees it: no static type tells an Author
    from a Book, attribute access decides. *)
Inductive object : Type :=
  | Obj_Author (a : Author.t)
  | Obj_Book (b : Book.t).

(** [get_session] is an [@asynccontextmanager] generator: what a call
    returns implements the asynchronous protocol only. *)
Definition get_session : ContextManager :=
  {| has_enter := false; has_aenter := true |}.

End models.

(** [obj.id], [obj.name], [obj.author]: [AttributeError] on [None] and on an
    object without the attribute. *)
Definition attr_id (obj : option models.object) : outcome (option Z) :=
  match obj with
  | Some (models.Obj_Author a) => Returned (models.Author.id a)
  | Some (models.Obj_Book b) => Returned (models.Book.id b)
  | None => Raised AttributeError
  end.

Definition attr_name (obj : option models.object) : outcome string :=
  match obj with
  | Some (models.Obj_Author a) => Returned (models.Author.name a)
  | Some (models.Obj_Book b) => Returned (models.Book.name b)
  | None => Raised AttributeError
  end.

Definition attr_author (obj : option models.object) : outcome (option models.object) :=
  match obj with
  | Some (models.Obj_Book b) => Returned (models.Obj_Author <$> models.Book.author b)
  | Some (models.Obj_Author _) => Raised AttributeError
  | None => Raised AttributeError
  end.

(** ** app.py: the API types and their [marshal] class methods *)

Module Author.
Record t : Type := mk { id : string; name : string }.

(** [cls(id=strawberry.ID(str(model.id)), name=model.name)] *)
Definition marshal (model : option models.object) : outcome t :=
  i ← attr_id model;
  n ← attr_name model;
  mret {| id := str i; name := n |}.
End Author.

Module Book.
Record t : Type := mk { id : string; name : string; author : option Author.t }.

(** [cls(id=strawberry.ID(str(model.id)), name=model.name,
         author=Author.marshal(model.author) if model.author else None)] *)
Definition marshal (model : option models.object) : outcome t :=
  i ← attr_id model;
  n ← attr_name model;
  linked ← attr_author model;
  a ← (if truthy linked
       then linked' ← attr_author model; Some <$> Author.marshal linked'
       else mret None);
  mret {| id := str i; name := n; author := a |}.
End Book.

(** The three failure types, each a class with one defaulted [message]. *)
Definition AuthorExists_message : string := "Author with this name already exists".
Definition AuthorNotFound_message : string := "Couldn't find an author with the supplied name".
Definition AuthorNameMissing_message : string := "Please supply an author name".

(** [AddBookResponse = union(Book, AuthorNotFound, AuthorNameMissing)] *)
Inductive AddBookResponse : Type :=
  | AddBook_Book (b : Book.t)
  | AuthorNotFound
  | AuthorNameMissing.

(** [AddAuthorResponse = union(Author, AuthorExists)] *)
Inductive AddAuthorResponse : Type :=
  | AddAuthor_Author (a : Author.t)
  | AuthorExists.

(** ** The database behind the session *)

(** A row of the table [authors] and a row of the table [books]. *)
Record AuthorRow : Type := { author_pk : Z; author_name : string }.
Record BookRow : Type := {
  book_pk : Z;
  book_name : string;
  book_author_id : option Z
}.

(** The tables, each in insertion order. *)
Record Database : Type := {
  authors_table : list AuthorRow;
  books_table : list BookRow
}.

(** What the source hands to [select]: an entity class, or (in [Query.books])
    the module [models] itself. *)
Inductive selectable : Type :=
  | Module_models
  | Class_Author
  | Class_Book.

(** The criteria the source passes to [where]. [Python_bool b] is a Python
    boolean, which SQLAlchemy turns into the constant [true] or [false]. *)
Inductive criterion : Type :=
  | Author_name_eq (s : string)     (* models.Author.name == s *)
  | Book_author_id_eq (k : Z)       (* models.Book.author_id == k *)
  | Python_bool (b : bool).

(** A SELECT statement over one entity; [by_name] is [order_by(<entity>.name)]. *)
Record Select : Type := {
  entity : selectable;
  whereclause : option criterion;
  by_name : bool
}.

(** [select(x)]: SQLAlchemy refuses what is neither an entity nor a column. *)
Definition select (x : selectable) : outcome Select :=
  match x with
  | Module_models => Raised ArgumentError
  | _ => Returned {| entity := x; whereclause := None; by_name := false |}
  end.

Definition where_ (c : criterion) (q : Select) : Select :=
  {| entity := entity q; whereclause := Some c; by_name := by_name q |}.

Definition order_by_name (q : Select) : Select :=
  {| entity := entity q; whereclause := whereclause q; by_name := true |}.

(** The ORM's view of a row. A book comes with its author, joined on
    [books.author_id = authors.id]. *)
Definition load_Author (r : AuthorRow) : models.Author.t :=
  {| models.Author.id := Some (author_pk r); models.Author.name := author_name r |}.

Definition find_author (d : Database) (k : Z) : option AuthorRow :=
  List.find (fun r => Z.eqb (author_pk r) k) (authors_table d).

Definition load_Book (d : Database) (r : BookRow) : models.Book.t :=
  {| models.Book.id := Some (book_pk r);
     models.Book.name := book_name r;
     models.Book.author_id :=
       match book_author_id r with
       | Some k => models.FkInt k
       | None => models.FkNone
       end;
     models.Book.author := load_Author <$> (book_author_id r ≫= find_author d) |}.

(** Ascending order of names, as the database compares text: byte by byte. *)
Definition name_le (x y : string) : Prop := String.leb x y = true.

#[export] Instance name_le_dec : RelDecision name_le.
Proof. intros x y. unfold name_le. apply bool_eq_dec. Defined.

Definition author_row_le (x y : AuthorRow) : Prop :=
  name_le (author_name x) (author_name y).
Definition book_row_le (x y : BookRow) : Prop :=
  name_le (book_name x) (book_name y).

#[export] Instance name_le_total : Total name_le.
Proof. intros x y. apply String.leb_total. Qed.

#[export] Instance author_row_le_total : Total author_row_le.
Proof. intros x y. apply String.leb_total. Qed.

#[export] Instance author_row_le_dec : RelDecision author_row_le.
Proof. intros x y. apply name_le_dec. Defined.
#[export] Instance book_row_le_dec : RelDecision book_row_le.
Proof. intros x y. apply name_le_dec. Defined.

(** Whether a row satisfies the criterion. A criterion on a column of the
    other table is not a statement the source writes; it selects no row
    here. *)
Definition author_row_matches (c : option criterion) (r : AuthorRow) : bool :=
  match c with
  | None => true
  | Some (Author_name_eq s) => String.eqb (author_name r) s
  | Some (Python_bool b) => b
  | Some (Book_author_id_eq _) => false
  end.

Definition book_row_matches (c : option criterion) (r : BookRow) : bool :=
  match c with
  | None => true
  | Some (Book_author_id_eq k) =>
      match book_author_id r with
      | Some k' => Z.eqb k' k
      | None => false
      end
  | Some (Python_bool b) => b
  | Some (Author_name_eq _) => false
  end.

(** The rows a statement selects, as entities: [.scalars().unique().all()].
    The order among rows of equal name under [order_by] is the database's
    choice; no statement below depends on the one taken here. *)
Definition run_select (d : Database) (q : Select) : list models.object :=
  match entity q with
  | Class_Author =>
      let rows := List.filter (author_row_matches (whereclause q)) (authors_table d) in
      let rows := if by_name q then merge_sort author_row_le rows else rows in
      (fun r => models.Obj_Author (load_Author r)) <$> rows
  | Class_Book =>
      let rows := List.filter (book_row_matches (whereclause q)) (books_table d) in
      let rows := if by_name q then merge_sort book_row_le rows else rows in
      (fun r => models.Obj_Book (load_Book d r)) <$> rows
  | Module_models => []
  end.

(** The key an INSERT without an explicit key gets: one more than the
    largest in the table, 1 in an empty table. *)
Definition next_pk (pks : list Z) : Z :=
  match pks with
  | [] => 1
  | k :: ks => 1 + foldr Z.max k ks
  end.

(** ** The state of a request and the monad of the resolvers *)

Record State : Type := {
  database : Database;
  executed : list Select;        (* every statement [s.execute] ran, oldest first *)
  heap : list models.object;     (* objects the resolvers construct; a reference is an index *)
  pending : list nat             (* references given to [s.add] and not flushed yet *)
}.

Definition M (A : Type) : Type := State -> outcome A * State.

#[export] Instance M_ret : MRet M := fun _ a st => (Returned a, st).
#[export] Instance M_bind : MBind M := fun _ _ f m st =>
  match m st with
  | (Returned a, st') => f a st'
  | (Raised e, st') => (Raised e, st')
  end.
#[export] Instance M_fmap : FMap M := fun _ _ f m st =>
  match m st with
  | (Returned a, st') => (Returned (f a), st')
  | (Raised e, st') => (Raised e, st')
  end.

(** A pure computation that may raise, run inside [M]. *)
Definition lift {A : Type} (o : outcome A) : M A := fun st => (o, st).

Definition raise {A : Type} (e : exn) : M A := fun st => (Raised e, st).

(** [for x in xs], collecting the results; stops at the first exception. *)
Fixpoint for_each {A B : Type} (f : A -> M B) (xs : list A) : M (list B) :=
  match xs with
  | [] => mret []
  | x :: xs' => y ← f x; ys ← for_each f xs'; mret (y :: ys)
  end.

(** ** The session *)

Definition set_database (d : Database) (st : State) : State :=
  {| database := d; executed := executed st; heap := heap st; pending := pending st |}.
Definition set_executed (l : list Select) (st : State) : State :=
  {| database := database st; executed := l; heap := heap st; pending := pending st |}.
Definition set_heap (h : list models.object) (st : State) : State :=
  {| database := database st; executed := executed st; heap := h; pending := pending st |}.
Definition set_pending (p : list nat) (st : State) : State :=
  {| database := database st; executed := executed st; heap := heap st; pending := p |}.

(** The integers the database stores and the driver binds: signed, on 64
    bits. *)
Definition Int64 (k : Z) : Prop := - 2 ^ 63 ≤ k < 2 ^ 63.

Definition int64 (k : Z) : bool := (- 2 ^ 63 <=? k) && (k <? 2 ^ 63).
Arguments int64 : simpl never.

(** Whether the driver can bind the parameters of a statement: a key
    compared with [books.author_id] has to be an [int64]. *)
Definition bindable (q : Select) : bool :=
  match whereclause q with
  | Some (Book_author_id_eq k) => int64 k
  | _ => true
  end.

(** [(await s.execute(sql)).scalars().unique().all()]; a parameter that
    cannot be bound raises before the statement runs. *)
Definition execute (q : Select) : M (list models.object) := fun st =>
  if bindable q
  then (Returned (run_select (database st) q), set_executed (executed st ++ [q]) st)
  else (Raised OverflowError, st).

(** [.first()]: the first result, or [None]. *)
Definition first {A : Type} (l : list A) : option A := head l.

(** A constructor call such as [models.Author(name=name)]: a new object,
    known by its reference. *)
Definition construct (o : models.object) : M nat := fun st =>
  (Returned (length (heap st)), set_heap (heap st ++ [o]) st).

(** Reading a local variable that holds a reference. *)
Definition deref (r : nat) : M (option models.object) := fun st =>
  (Returned (heap st !! r), st).

(** [s.add(obj)] *)
Definition s_add (r : nat) : M unit := fun st =>
  (Returned tt, set_pending (pending st ++ [r]) st).

(** The value of the INSERT parameter for [author_id]: the driver binds
    integers and NULL, and refuses an entity instance. *)
Definition bind_parameter (v : models.fk) : outcome (option Z) :=
  match v with
  | models.FkNone => Returned None
  | models.FkInt k => Returned (Some k)
  | models.FkObj => Raised DBAPIError
  end.

(** The INSERT of one pending object; the key the database gives is written
    back into the object. *)
Definition flush_object (st : State) (r : nat) : outcome State :=
  let d := database st in
  match heap st !! r with
  | Some (models.Obj_Author a) =>
      let pk := next_pk (author_pk <$> authors_table d) in
      let row := {| author_pk := pk; author_name := models.Author.name a |} in
      let a' := {| models.Author.id := Some pk;
                   models.Author.name := models.Author.name a |} in
      Returned (set_heap (<[r := models.Obj_Author a']> (heap st))
                 (set_database {| authors_table := authors_table d ++ [row];
                                  books_table := books_table d |} st))
  | Some (models.Obj_Book b) =>
      k ← bind_parameter (models.Book.author_id b);
      let pk := next_pk (book_pk <$> books_table d) in
      let row := {| book_pk := pk; book_name := models.Book.name b;
                    book_author_id := k |} in
      let b' := {| models.Book.id := Some pk;
                   models.Book.name := models.Book.name b;
                   models.Book.author_id := models.Book.author_id b;
                   models.Book.author := models.Book.author b |} in
      Returned (set_heap (<[r := models.Obj_Book b']> (heap st))
                 (set_database {| authors_table := authors_table d;
                                  books_table := books_table d ++ [row] |} st))
  | None => Returned st
  end.

Fixpoint flush (refs : list nat) (st : State) : outcome State :=
  match refs with
  | [] => Returned st
  | r :: refs' => st' ← flush_object st r; flush refs' st'
  end.

(** [await s.commit()]: all pending objects are inserted, or (when one
    INSERT fails) none is. *)
Definition s_commit : M unit := fun st =>
  match flush (pending st) st with
  | Returned st' => (Returned tt, set_pending [] st')
  | Raised e => (Raised e, st)
  end.

(** The body of [get_session] around a block (models.py, lines 52 to 59): a
    new session in a transaction, so nothing is pending when the block
    starts, and [session.close()] in the [finally], which drops what is
    still pending however the block ends ([return], falling through, an
    exception). *)
Definition in_session {A : Type} (body : M A) : M A := fun st =>
  let '(r, st') := body (set_pending [] st) in
  (r, set_pending [] st').

(** [with cm as s: body] and [async with cm as s: body]. Entering a manager
    through a protocol it does not implement raises ([TypeError] since
    Python 3.11, [AttributeError] before). *)
Definition with_ {A : Type} (cm : ContextManager) (body : M A) : M A :=
  if has_enter cm then in_session body else raise TypeError.

Definition async_with {A : Type} (cm : ContextManager) (body : M A) : M A :=
  if has_aenter cm then in_session body else raise TypeError.

(** How a block ends: by a [return] statement, or by reaching its end with
    the local variable the code after it reads. *)
Inductive flow (R A : Type) : Type :=
  | Return_ (r : R)
  | Fall (a : A).
Arguments Return_ {R A} r.
Arguments Fall {R A} a.

(** ** app.py: the resolvers *)

Module Query.

(** [sql = select(models).order_by(models.Book.name)]: it is the module that
    [select] is handed. *)
Definition books : M (list Book.t) :=
  async_with models.get_session (
    sql ← lift (order_by_name <$> select Module_models);
    db_books ← execute sql;
    for_each (fun book => lift (Book.marshal (Some book))) db_books).

(** [sql = select(models.Author).order_by(models.Author.name)] *)
Definition authors : M (list Author.t) :=
  async_with models.get_session (
    sql ← lift (order_by_name <$> select Class_Author);
    db_authors ← execute sql;
    for_each (fun author => lift (Author.marshal (Some author))) db_authors).

End Query.

Module Mutation.

(** The [with] block of [add_book] (lines 94 to 104): it ends by one of the
    two [return]s or with [db_book] committed. *)
Definition add_book_block (name : string) (author_name : option string)
  : M (flow AddBookResponse nat) :=
  (* db_author = None *)
  if negb (truthy_str author_name) then mret (Return_ AuthorNameMissing)
  else
    sql ← lift (where_ (Author_name_eq (default "" author_name))
                  <$> select Class_Author);
    (* .scalars().first() *)
    db_author ← first <$> execute sql;
    if negb (truthy db_author) then mret (Return_ AuthorNotFound)
    else
      (* author_id=db_author: the object found, not its id *)
      db_book ← construct (models.Obj_Book
                   {| models.Book.id := None;
                      models.Book.name := name;
                      models.Book.author_id := models.FkObj;
                      models.Book.author := None |});
      s_add db_book;;
      s_commit;;
      mret (Fall db_book).

(** [with models.get_session() as s:] (a plain [with]), the block, then
    [return Book.marshal(db_book)]. *)
Definition add_book (name : string) (author_name : option string)
  : M AddBookResponse :=
  r ← with_ models.get_session (add_book_block name author_name);
  match r with
  | Return_ response => mret response
  | Fall db_book =>
      model ← deref db_book;
      AddBook_Book <$> lift (Book.marshal model)
  end.

(** The [async with] block of [add_author] (lines 110 to 116). *)
Definition add_author_block (name : string) : M (flow AddAuthorResponse nat) :=
  sql ← lift (where_ (Author_name_eq name) <$> select Class_Author);
  (* .first(): a row holding the entity, true when there is one *)
  existing_db_author ← first <$> execute sql;
  if truthy existing_db_author then mret (Return_ AuthorExists)
  else
    db_author ← construct (models.Obj_Author
                   {| models.Author.id := None; models.Author.name := name |});
    s_add db_author;;
    s_commit;;
    mret (Fall db_author).

Definition add_author (name : string) : M AddAuthorResponse :=
  r ← async_with models.get_session (add_author_block name);
  match r with
  | Return_ response => mret response
  | Fall db_author =>
      model ← deref db_author;
      AddAuthor_Author <$> lift (Author.marshal model)
  end.

End Mutation.

(** ** app.py: the batch functions and the loaders *)

(** An element of the list a batch function returns: an entity, or a list
    of entities. *)
Inductive value : Type :=
  | V_obj (o : models.object)
  | V_list (l : list models.object).

(** One SELECT per key, all in one session; the results in the order of the
    keys. A key that is no [int64] raises at its SELECT. *)
Definition load_books_by_author (keys : list Z) : M (list value) :=
  async_with models.get_session (
    let all_queries :=
      (fun key => where_ (Book_author_id_eq key) <$> select Class_Book) <$> keys in
    data ← for_each (fun sql => q ← lift sql; V_list <$> execute q) all_queries;
    (* print(keys, data) *)
    mret data).

Section AuthorLoader.

(** The truth value Python gives the comparison [models.Author.id == key],
    a SQL expression object: it is what the operator [in] of a list asks of
    each element. *)
Variable column_eq_truth : Z -> bool.

(** [models.Author.id in keys] *)
Definition id_in (keys : list Z) : bool := existsb column_eq_truth keys.

(** One SELECT whose criterion is the Python boolean [models.Author.id in
    keys]; an empty result gets one [[]] appended. *)
Definition load_author_by_book (keys : list Z) : M (list value) :=
  data ← async_with models.get_session (
            sql ← lift (where_ (Python_bool (id_in keys)) <$> select Class_Author);
            fmap V_obj <$> execute sql);
  mret (match data with
        | [] => data ++ [V_list []]
        | _ => data
        end).

End AuthorLoader.

(** strawberry's [DataLoader] with the options [get_context] leaves at their
    defaults (cache on, no limit on the batch), as far as the two batch
    functions depend on it. *)
Module DataLoader.

Record t : Type := { load_fn : list Z -> M (list value) }.

(** [load(key)] while a batch is open: a key asked for before shares the
    future of its first request, a new key joins the batch. *)
Definition load (batch : list Z) (key : Z) : list Z :=
  if decide (key ∈ batch) then batch else batch ++ [key].

(** The batch a window of [load] calls leaves when the loop dispatches it. *)
Definition batch_of (requests : list Z) : list Z := foldl load [] requests.

(** [dispatch_batch]: one call of [load_fn] with the keys of the batch; each
    future gets the value at its key's position, and all of them get the
    exception when [load_fn] raises or returns a list of another length. *)
Definition dispatch_batch (loader : t) (keys : list Z)
  : M (list (Z * outcome value)) := fun st =>
  match keys with
  | [] => (Returned [], st)
  | _ =>
      match load_fn loader keys st with
      | (Returned values, st') =>
          if decide (length values = length keys)
          then (Returned (zip keys (Returned <$> values)), st')
          else (Returned ((fun k => (k, Raised (WrongNumberOfResultsReturned
                                                  (length keys) (length values))))
                            <$> keys), st')
      | (Raised e, st') => (Returned ((fun k => (k, Raised e)) <$> keys), st')
      end
  end.

(** What the future of [load(key)] holds once the batch is dispatched. *)
Definition result_of (key : Z) (results : list (Z * outcome value))
  : option (outcome value) :=
  snd <$> List.find (fun kr => Z.eqb (fst kr) key) results.

End DataLoader.

(** [get_context]: a dictionary with a new loader per batch function. *)
Definition get_context (column_eq_truth : Z -> bool) : gmap string DataLoader.t :=
  {[ "author_by_book" :=
       {| DataLoader.load_fn := load_author_by_book column_eq_truth |};
     "books_by_author" :=
       {| DataLoader.load_fn := load_books_by_author |} ]}.

(** ** help.py: the tutorial variant *)

Module help.

(** The module-level list [authors], shared by every request of the
    process: empty when the module is loaded, then threaded through the
    resolvers. *)
Definition authors : list string := [].

Definition P (A : Type) : Type := list string -> A * list string.

(** [Query.all_authors]: [return authors] *)
Definition all_authors : P (list string) := fun authors => (authors, authors).

(** [Mutation.add_author]: [authors.append(name); return name] *)
Definition add_author (name : string) : P string := fun authors =>
  (name, authors ++ [name]).

(** The requests a client can send, and what it gets back. *)
Inductive request : Type :=
  | AllAuthors
  | AddAuthor (name : string).

Inductive response : Type :=
  | Names (l : list string)
  | Name (s : string).

Definition serve (r : request) : P response := fun authors =>
  match r with
  | AllAuthors => let '(l, authors') := all_authors authors in (Names l, authors')
  | AddAuthor name => let '(s, authors') := add_author name authors in (Name s, authors')
  end.

(** The requests of a process in the order they arrive. *)
Fixpoint serve_all (rs : list request) : P (list response) := fun authors =>
  match rs with
  | [] => ([], authors)
  | r :: rs' =>
      let '(x, authors') := serve r authors in
      let '(xs, authors'') := serve_all rs' authors' in
      (x :: xs, authors'')
  end.

(** The names a sequence of requests adds, in order. *)
Definition added (rs : list request) : list string :=
  omap (fun r => match r with AddAuthor n => Some n | AllAuthors => None end) rs.

End help.

(** ** Vocabulary of the statements below *)

(** A request arriving at a database: nothing executed, no object yet. *)
Definition new_request (d : Database) : State :=
  {| database := d; executed := []; heap := []; pending := [] |}.

Definition empty_database : Database :=
  {| authors_table := []; books_table := [] |}.

(** One author with one book. *)
Definition tolkien_database : Database :=
  {| authors_table := [{| author_pk := 1; author_name := "Tolkien" |}];
     books_table := [{| book_pk := 1; book_name := "Hobbit";
                        book_author_id := Some 1 |}] |}.

(** The criterion [models.Author.name == name], on a row. *)
Definition author_named (name : string) : AuthorRow → bool :=
  author_row_matches (Some (Author_name_eq name)).

(** The names of the stored authors, in insertion order. *)
Definition catalog_names (st : State) : list string :=
  author_name <$> authors_table (database st).

(** [select(models.Author).where(models.Author.name == name)] *)
Definition select_author_named (name : string) : Select :=
  where_ (Author_name_eq name)
    {| entity := Class_Author; whereclause := None; by_name := false |}.

(** [select(models.Book).where(models.Book.author_id == key)] *)
Definition select_books_of (key : Z) : Select :=
  where_ (Book_author_id_eq key)
    {| entity := Class_Book; whereclause := None; by_name := false |}.

(** [select(models.Author).where(b)] for a Python boolean [b] *)
Definition select_authors_where (b : bool) : Select :=
  where_ (Python_bool b)
    {| entity := Class_Author; whereclause := None; by_name := false |}.


(** The stored books whose [author_id] is the key, in table order. *)
Definition books_of_author (d : Database) (k : Z) : list BookRow :=
  filter (λ r, book_author_id r = Some k) (books_table d).

(** The two loaders of [get_context]. *)
Definition books_by_author : DataLoader.t :=
  {| DataLoader.load_fn := load_books_by_author |}.

Definition author_by_book (column_eq_truth : Z -> bool) : DataLoader.t :=
  {| DataLoader.load_fn := load_author_by_book column_eq_truth |}.

(** ** models.py: setting the schema up *)

(** [Base.metadata.drop_all] and [Base.metadata.create_all] on the tables of
    the metadata, which are there ([Some]) or not: dropping leaves none, and
    creating adds the missing ones, empty, without touching those there. *)
Definition drop_all (tables : option Database) : option Database := None.

Definition create_all (tables : option Database) : Database :=
  default empty_database tables.

(** [_async_main]: drop, then create, on one connection. *)
Definition _async_main (d : Database) : Database :=
  create_all (drop_all (Some d)).

(** ** The operations of the schema, one after the other *)

Inductive operation : Type :=
  | Op_books
  | Op_authors
  | Op_add_author (name : string)
  | Op_add_book (name : string) (author_name : option string).

(** The state an operation leaves, whatever it answers. *)
Definition perform (st : State) (op : operation) : State :=
  match op with
  | Op_books => (Query.books st).2
  | Op_authors => (Query.authors st).2
  | Op_add_author name => (Mutation.add_author name st).2
  | Op_add_book name author_name => (Mutation.add_book name author_name st).2
  end.

Definition perform_all (ops : list operation) (st : State) : State :=
  foldl perform st ops.

(** The keys of the stored authors, in insertion order. *)
Definition catalog_keys (st : State) : list Z :=
  author_pk <$> authors_table (database st).

(** The API shape of a stored author. *)
Definition api_author (r : AuthorRow) : Author.t :=
  {| Author.id := str (Some (author_pk r)); Author.name := author_name r |}.

(** Runs the binds of a resolver on the state at hand. *)
Ltac run_M := unfold mbind, M_bind, fmap, M_fmap, execute, lift; simpl.

(** * Properties *)

(** ** The tutorial variant *)

Lemma serve_all_app rs1 rs2 authors :
  help.serve_all (rs1 ++ rs2) authors =
  let '(xs, authors') := help.serve_all rs1 authors in
  let '(ys, authors'') := help.serve_all rs2 authors' in
  (xs ++ ys, authors'').
Proof.
  revert authors. induction rs1 as [|r rs1 IH]; intros authors; simpl.
  - by destruct (help.serve_all rs2 authors).
  - destruct (help.serve r authors) as [x authors1].
    rewrite IH.
    destruct (help.serve_all rs1 authors1) as [xs authors2].
    by destruct (help.serve_all rs2 authors2).
Qed.

Lemma serve_all_list rs authors :
  (help.serve_all rs authors).2 = authors ++ help.added rs.
Proof.
  revert authors. induction rs as [|r rs IH]; intros authors; simpl.
  - by rewrite app_nil_r.
  - destruct r as [|name]; simpl.
    + specialize (IH authors).
      by destruct (help.serve_all rs authors).
    + specialize (IH (authors ++ [name])).
      destruct (help.serve_all rs (authors ++ [name])); simpl in *.
      by rewrite IH, <- app_assoc.
Qed.

Lemma serve_all_length rs authors :
  length (help.serve_all rs authors).1 = length rs.
Proof.
  revert authors. induction rs as [|r rs IH]; intros authors; simpl; [done|].
  destruct (help.serve r authors) as [x authors1].
  specialize (IH authors1).
  destruct (help.serve_all rs authors1); simpl in *. by rewrite IH.
Qed.

Lemma serve_all_lookup rs authors i r :
  rs !! i = Some r →
  (help.serve_all rs authors).1 !! i =
  Some (help.serve r (authors ++ help.added (take i rs))).1.
Proof.
  intros Hi.
  rewrite <- (take_drop_middle rs i r Hi) at 1.
  rewrite serve_all_app.
  pose proof (serve_all_list (take i rs) authors) as Hl.
  pose proof (serve_all_length (take i rs) authors) as Hn.
  destruct (help.serve_all (take i rs) authors) as [xs authors1].
  simpl in Hl, Hn. subst authors1. simpl.
  destruct (help.serve r (authors ++ help.added (take i rs))) as [x authors2].
  destruct (help.serve_all (drop (S i) rs) authors2) as [ys authors3]. simpl.
  assert (length xs = i) as <-.
  { rewrite Hn, length_take. apply lookup_lt_Some in Hi. lia. }
  by rewrite list_lookup_middle.
Qed.

(** C10. In the tutorial variant [add_author name] appends [name] to the one
    list of the process and returns [name], whatever the name and whatever
    the list holds already; over any sequence of requests, every
    [add_author] answers with its own argument and every [all_authors]
    answers with all names added before it, in the order of the calls. *)
Theorem tutorial_authors_accumulate (rs : list help.request) (authors : list string) :
  (∀ name, help.add_author name authors = (name, authors ++ [name])) ∧
  (help.serve_all rs authors).2 = authors ++ help.added rs ∧
  (∀ i name, rs !! i = Some (help.AddAuthor name) →
     (help.serve_all rs authors).1 !! i = Some (help.Name name)) ∧
  (∀ i, rs !! i = Some help.AllAuthors →
     (help.serve_all rs authors).1 !! i =
     Some (help.Names (authors ++ help.added (take i rs)))).
Proof.
  split; [done|]. split; [apply serve_all_list|].
  split.
  - intros i name Hi. by rewrite (serve_all_lookup _ _ _ _ Hi).
  - intros i Hi. by rewrite (serve_all_lookup _ _ _ _ Hi).
Qed.

(** The first requests of a process: the same name added twice, the list
    read after each. *)
Lemma tutorial_authors_accumulate_witness :
  (help.serve_all [help.AddAuthor "Tolkien"; help.AllAuthors;
                   help.AddAuthor "Tolkien"; help.AllAuthors] help.authors).1 !! 3%nat
  = Some (help.Names ["Tolkien"; "Tolkien"]).
Proof.
  exact (proj2 (proj2 (proj2 (tutorial_authors_accumulate
    [help.AddAuthor "Tolkien"; help.AllAuthors;
     help.AddAuthor "Tolkien"; help.AllAuthors] help.authors))) 3%nat eq_refl).
Defined.

(** ** Marshalling *)

Lemma Author_marshal_object (a : models.Author.t) :
  Author.marshal (Some (models.Obj_Author a)) =
  Returned {| Author.id := str (models.Author.id a);
              Author.name := models.Author.name a |}.
Proof. reflexivity. Qed.

Lemma Book_marshal_object (b : models.Book.t) :
  Book.marshal (Some (models.Obj_Book b)) =
  Returned {| Book.id := str (models.Book.id b);
              Book.name := models.Book.name b;
              Book.author :=
                (fun a => {| Author.id := str (models.Author.id a);
                             Author.name := models.Author.name a |})
                <$> models.Book.author b |}.
Proof. destruct b as [i n k [a|]]; reflexivity. Qed.

(** Without the guard [if model.author] the call would raise. *)
Lemma Author_marshal_None : Author.marshal None = Raised AttributeError.
Proof. reflexivity. Qed.

(** A book row whose [author_id] is NULL, or names no author, loads with no
    author. *)
Lemma load_Book_unlinked (d : Database) (r : BookRow) :
  book_author_id r ≫= find_author d = None →
  models.Book.author (load_Book d r) = None.
Proof. intros H. unfold load_Book; simpl. by rewrite H. Qed.

(** C8. Marshalling a Book entity with no linked Author returns (it does not
    raise) the API Book with the entity's id and name and [None] as its
    author. *)
Theorem Book_marshal_without_author (b : models.Book.t) :
  models.Book.author b = None →
  Book.marshal (Some (models.Obj_Book b)) =
  Returned {| Book.id := str (models.Book.id b);
              Book.name := models.Book.name b;
              Book.author := None |}.
Proof. intros H. rewrite Book_marshal_object. by rewrite H. Qed.

(** A stored book with a NULL [author_id], loaded and marshalled. *)
Lemma Book_marshal_without_author_witness :
  Book.marshal (Some (models.Obj_Book
    (load_Book {| authors_table := [{| author_pk := 1; author_name := "Tolkien" |}];
                  books_table := [] |}
               {| book_pk := 7; book_name := "Hobbit"; book_author_id := None |})))
  = Returned {| Book.id := "7"; Book.name := "Hobbit"; Book.author := None |}.
Proof.
  exact (Book_marshal_without_author
    (load_Book {| authors_table := [{| author_pk := 1; author_name := "Tolkien" |}];
                  books_table := [] |}
               {| book_pk := 7; book_name := "Hobbit"; book_author_id := None |})
    eq_refl).
Defined.

(** C9. Marshalling the same Author entity, or the same Book entity, twice
    in a row returns both times, with the same API shape. *)
Theorem marshal_twice_identical :
  (∀ a : models.Author.t, ∃ shape,
     (x ← Author.marshal (Some (models.Obj_Author a));
      y ← Author.marshal (Some (models.Obj_Author a));
      mret (x, y)) = Returned (shape, shape)) ∧
  (∀ b : models.Book.t, ∃ shape,
     (x ← Book.marshal (Some (models.Obj_Book b));
      y ← Book.marshal (Some (models.Obj_Book b));
      mret (x, y)) = Returned (shape, shape)).
Proof.
  split.
  - intros a. eexists. by rewrite Author_marshal_object.
  - intros b. eexists. by rewrite Book_marshal_object.
Qed.

(** ** The session and [add_author] *)

Lemma first_fmap_filter {A B : Type} (f : A → B) (p : A → bool) (l : list A) :
  first (f <$> List.filter p l) = f <$> List.find p l.
Proof.
  induction l as [|x l IH]; simpl; [done|].
  destruct (p x); simpl; [done|apply IH].
Qed.

Lemma heap_lookup_new (h : list models.object) (o : models.object) :
  (h ++ [o]) !! length h = Some o.
Proof. by rewrite list_lookup_middle. Qed.

Lemma heap_insert_new (h : list models.object) (o o' : models.object) :
  <[length h := o']> (h ++ [o]) = h ++ [o'].
Proof. rewrite insert_app_r_alt by lia. by rewrite Nat.sub_diag. Qed.

Lemma foldr_max_ge (k : Z) (ks : list Z) :
  k ≤ foldr Z.max k ks ∧ ∀ x, x ∈ ks → x ≤ foldr Z.max k ks.
Proof.
  induction ks as [|y ks [IH1 IH2]]; simpl.
  - split; [lia|]. intros x Hx. by apply elem_of_nil in Hx.
  - split; [lia|]. intros x Hx. apply elem_of_cons in Hx as [->|Hx]; [lia|].
    specialize (IH2 x Hx). lia.
Qed.

(** The key of an INSERT is above every key of the table. *)
Lemma next_pk_fresh (pks : list Z) (x : Z) : x ∈ pks → x < next_pk pks.
Proof.
  destruct pks as [|k ks]; simpl; intros Hx.
  - by apply elem_of_nil in Hx.
  - destruct (foldr_max_ge k ks) as [H1 H2].
    apply elem_of_cons in Hx as [->|Hx]; [lia|].
    specialize (H2 x Hx). lia.
Qed.

Lemma find_author_named_Some (name : string) (rows : list AuthorRow) :
  is_Some (List.find (author_named name) rows) ↔
  ∃ r, r ∈ rows ∧ author_name r = name.
Proof.
  split.
  - intros [r Hr]. apply find_some in Hr as [Hin Hp].
    exists r. split; [by apply list_elem_of_In|].
    by apply String.eqb_eq.
  - intros (r & Hin & Hname).
    destruct (List.find (author_named name) rows) as [r'|] eqn:Hfind; [by eexists|].
    apply list_elem_of_In in Hin.
    pose proof (find_none _ _ Hfind r Hin) as Hp.
    unfold author_named in Hp; simpl in Hp.
    apply String.eqb_neq in Hp. done.
Qed.

(** What one call of [add_author] does, by the outcome of its SELECT. *)
Lemma add_author_run (name : string) (st : State) :
  Mutation.add_author name st =
  let d := database st in
  match List.find (author_named name) (authors_table d) with
  | Some _ =>
      (Returned AuthorExists,
       {| database := d; executed := executed st ++ [select_author_named name];
          heap := heap st; pending := [] |})
  | None =>
      let pk := next_pk (author_pk <$> authors_table d) in
      (Returned (AddAuthor_Author {| Author.id := str (Some pk); Author.name := name |}),
       {| database := {| authors_table := authors_table d ++
                           [{| author_pk := pk; author_name := name |}];
                         books_table := books_table d |};
          executed := executed st ++ [select_author_named name];
          heap := heap st ++ [models.Obj_Author
                    {| models.Author.id := Some pk; models.Author.name := name |}];
          pending := [] |})
  end.
Proof.
  unfold Mutation.add_author, Mutation.add_author_block, async_with, in_session.
  simpl. run_M.
  unfold run_select. simpl.
  rewrite first_fmap_filter.
  fold (author_named name).
  destruct (List.find (author_named name) (authors_table (database st)))
    as [r|] eqn:Hfind; simpl.
  - reflexivity.
  - unfold s_commit, deref. simpl. unfold flush_object. simpl.
    rewrite heap_lookup_new. simpl.
    rewrite heap_insert_new, heap_lookup_new.
    reflexivity.
Qed.

(** C3. [add_author name] returns the [AuthorExists] variant exactly when a
    stored author has that very name, and then leaves the database as it
    was; otherwise it appends one author row with that name under a key no
    stored author has, and returns the API Author of that row. *)
Theorem add_author_exists_iff_present (name : string) (st : State) :
  let present := ∃ r, r ∈ authors_table (database st) ∧ author_name r = name in
  ((Mutation.add_author name st).1 = Returned AuthorExists ↔ present) ∧
  (present → database (Mutation.add_author name st).2 = database st) ∧
  (¬ present →
   ∃ pk,
     (∀ r, r ∈ authors_table (database st) → author_pk r ≠ pk) ∧
     database (Mutation.add_author name st).2 =
       {| authors_table := authors_table (database st) ++
                             [{| author_pk := pk; author_name := name |}];
          books_table := books_table (database st) |} ∧
     (Mutation.add_author name st).1 =
       Returned (AddAuthor_Author {| Author.id := str (Some pk); Author.name := name |})).
Proof.
  intros present. subst present.
  rewrite add_author_run. simpl.
  pose proof (find_author_named_Some name (authors_table (database st))) as Hfind.
  destruct (List.find (author_named name) (authors_table (database st))) as [r|]; simpl.
  - assert (∃ r0, r0 ∈ authors_table (database st) ∧ author_name r0 = name) as Hp
      by (apply Hfind; by eexists).
    split; [done|]. split; [done|]. intros Hn. by destruct Hn.
  - assert (¬ ∃ r0, r0 ∈ authors_table (database st) ∧ author_name r0 = name) as Hn.
    { intros Hp. apply Hfind in Hp. by destruct Hp. }
    split; [split; [done|by intros Hp]|].
    split; [by intros Hp|]. intros _.
    exists (next_pk (author_pk <$> authors_table (database st))).
    split; [|done].
    intros r Hr Heq.
    assert (author_pk r ∈ author_pk <$> authors_table (database st)) as Hin
      by (apply list_elem_of_fmap; eauto).
    apply next_pk_fresh in Hin. lia.
Qed.

(** Adding "Tolkien" to a catalog that has no such author, then again. *)
Lemma add_author_exists_iff_present_witness :
  (Mutation.add_author "Tolkien" (new_request empty_database)).1 =
    Returned (AddAuthor_Author {| Author.id := "1"; Author.name := "Tolkien" |}) ∧
  (Mutation.add_author "Tolkien"
     (Mutation.add_author "Tolkien" (new_request empty_database)).2).1 =
    Returned AuthorExists.
Proof.
  split.
  - destruct (proj2 (proj2 (add_author_exists_iff_present "Tolkien"
                              (new_request empty_database)))) as (pk & _ & Hdb & Hret).
    + intros (r & Hr & _). vm_compute in Hr. by apply elem_of_nil in Hr.
    + vm_compute in Hdb. injection Hdb as <-. exact Hret.
  - apply (proj1 (add_author_exists_iff_present "Tolkien"
             (Mutation.add_author "Tolkien" (new_request empty_database)).2)).
    exists {| author_pk := 1; author_name := "Tolkien" |}.
    split; [vm_compute; apply list_elem_of_here|reflexivity].
Defined.

(** ** Names in the catalog *)

Lemma catalog_names_add_author (name : string) (st : State) :
  catalog_names (Mutation.add_author name st).2 =
  if decide (name ∈ catalog_names st) then catalog_names st
  else catalog_names st ++ [name].
Proof.
  rewrite add_author_run. unfold catalog_names. simpl.
  pose proof (find_author_named_Some name (authors_table (database st))) as Hfind.
  destruct (List.find (author_named name) (authors_table (database st))) as [r|]; simpl.
  - rewrite decide_True; [done|].
    destruct (proj1 Hfind) as (r0 & Hr0 & <-); [by eexists|].
    apply list_elem_of_fmap. eauto.
  - rewrite decide_False; [by rewrite fmap_app|].
    intros (r0 & -> & Hr0)%list_elem_of_fmap.
    destruct (proj2 Hfind) as [? ?]; [eauto|done].
Qed.

(** The claim that the mutation path never stores an empty name fails:
    [add_author ""] on an empty catalog stores an author named [""]. *)
Lemma add_author_stores_empty_name :
  ¬ (∀ (st : State) (name : string),
       (∀ n, n ∈ catalog_names st → n ≠ "") →
       ∀ n, n ∈ catalog_names (Mutation.add_author name st).2 → n ≠ "").
Proof.
  intros H.
  apply (H (new_request empty_database) "" ) with (n := "").
  - intros n Hn. vm_compute in Hn. by apply elem_of_nil in Hn.
  - vm_compute. apply list_elem_of_here.
  - reflexivity.
Qed.

(** C7, as the code has it. [add_author name] refuses only a name that is
    stored already: a new name, the empty string included, is appended to
    the stored names as it was given, a stored name changes nothing, and so
    names that were pairwise distinct stay pairwise distinct. *)
Theorem add_author_keeps_names_distinct (name : string) (st : State) :
  (name ∈ catalog_names st →
   catalog_names (Mutation.add_author name st).2 = catalog_names st) ∧
  (name ∉ catalog_names st →
   catalog_names (Mutation.add_author name st).2 = catalog_names st ++ [name]) ∧
  (NoDup (catalog_names st) →
   NoDup (catalog_names (Mutation.add_author name st).2)).
Proof.
  rewrite catalog_names_add_author.
  destruct (decide (name ∈ catalog_names st)) as [Hin|Hnin].
  - split; [done|]. split; [done|done].
  - split; [done|]. split; [done|].
    intros Hnd. apply NoDup_app. split; [done|].
    split; [|apply NoDup_singleton].
    intros x Hx ->%list_elem_of_singleton. done.
Qed.

(** The empty name is stored once, and a second [add_author ""] is refused
    like any other duplicate. *)
Lemma add_author_keeps_names_distinct_witness :
  catalog_names (Mutation.add_author "" (new_request empty_database)).2 = [""] ∧
  catalog_names (Mutation.add_author ""
                   (Mutation.add_author "" (new_request empty_database)).2).2 = [""].
Proof.
  split.
  - apply (proj1 (proj2 (add_author_keeps_names_distinct ""
                           (new_request empty_database)))).
    vm_compute. apply not_elem_of_nil.
  - apply (proj1 (add_author_keeps_names_distinct ""
                    (Mutation.add_author "" (new_request empty_database)).2)).
    vm_compute. apply list_elem_of_here.
Defined.

(** ** [add_book] and [books] *)

(** C2, at the code: whatever the arguments, [add_book] raises when it
    enters [models.get_session()] with a plain [with], before it looks at
    [author_name]; it returns none of the three variants and leaves the
    request as it was. *)
Theorem add_book_raises (name : string) (author_name : option string) (st : State) :
  Mutation.add_book name author_name st = (Raised TypeError, st).
Proof. reflexivity. Qed.

(** Inside the block, run in a session, the foreign key is given the object
    found, which the INSERT cannot bind: the block never ends with a
    committed book, and the database it leaves is the one it found. *)
Lemma add_book_block_never_commits (name : string) (author_name : option string)
    (st : State) (db_book : nat) :
  (in_session (Mutation.add_book_block name author_name) st).1 ≠ Returned (Fall db_book) ∧
  database (in_session (Mutation.add_book_block name author_name) st).2 = database st.
Proof.
  unfold in_session, Mutation.add_book_block.
  destruct (truthy_str author_name); simpl; [|done].
  run_M.
  destruct (first _); simpl; [|done].
  unfold s_commit. simpl. unfold flush_object. simpl.
  rewrite heap_lookup_new. simpl. done.
Qed.


(** C5, at the code: [books] raises at [select(models)], for every
    database, before any statement is executed; no list is returned. *)
Theorem books_raises (st : State) :
  (Query.books st).1 = Raised ArgumentError ∧
  executed (Query.books st).2 = executed st ∧
  database (Query.books st).2 = database st.
Proof. done. Qed.

(** ** The batch functions *)

Lemma set_executed_id (st : State) : set_executed (executed st) st = st.
Proof. by destruct st. Qed.

Lemma M_bind_run {A B : Type} (m : M A) (f : A → M B) (st : State) :
  (m ≫= f) st =
  match m st with
  | (Returned a, st') => f a st'
  | (Raised e, st') => (Raised e, st')
  end.
Proof. reflexivity. Qed.

Lemma int64_spec (k : Z) : int64 k = true ↔ Int64 k.
Proof.
  unfold int64, Int64. rewrite andb_true_iff, Z.leb_le, Z.ltb_lt. done.
Qed.

Lemma select_books_step (k : Z) (st : State) :
  (lift (where_ (Book_author_id_eq k) <$> select Class_Book)
     ≫= (λ q, V_list <$> execute q)) st
  = if int64 k
    then (Returned (V_list (run_select (database st) (select_books_of k))),
          set_executed (executed st ++ [select_books_of k]) st)
    else (Raised OverflowError, st).
Proof.
  unfold mbind, M_bind, lift, fmap, M_fmap, execute, bindable. simpl.
  by destruct (int64 k).
Qed.

Lemma for_each_select_books (keys : list Z) (st : State) :
  Forall Int64 keys →
  for_each (fun sql => q ← lift sql; V_list <$> execute q)
    ((fun key => where_ (Book_author_id_eq key) <$> select Class_Book) <$> keys) st
  = (Returned ((fun k => V_list (run_select (database st) (select_books_of k))) <$> keys),
     set_executed (executed st ++ (select_books_of <$> keys)) st).
Proof.
  intros Hkeys. revert st.
  induction Hkeys as [|k keys Hk Hkeys IH]; intros st.
  - simpl. by rewrite app_nil_r, set_executed_id.
  - cbn [fmap list_fmap for_each].
    rewrite M_bind_run, select_books_step.
    rewrite (proj2 (int64_spec k) Hk), M_bind_run, IH.
    unfold set_executed. simpl. by rewrite <- app_assoc.
Qed.

(** A key that is no [int64] stops the loop at its SELECT. *)
Lemma for_each_select_books_overflow (keys : list Z) (st : State) :
  ¬ Forall Int64 keys →
  ∃ st',
    for_each (fun sql => q ← lift sql; V_list <$> execute q)
      ((fun key => where_ (Book_author_id_eq key) <$> select Class_Book) <$> keys) st
    = (Raised OverflowError, st') ∧
    database st' = database st.
Proof.
  revert st. induction keys as [|k keys IH]; intros st Hkeys.
  - destruct Hkeys. constructor.
  - cbn [fmap list_fmap for_each].
    rewrite M_bind_run, select_books_step.
    destruct (int64 k) eqn:Hk.
    + apply int64_spec in Hk.
      destruct (IH (set_executed (executed st ++ [select_books_of k]) st))
        as (st' & Hrun & Hdb).
      { intros Hrest. apply Hkeys. by constructor. }
      rewrite M_bind_run, Hrun. by exists st'.
    + by exists st.
Qed.

Lemma load_books_by_author_run (keys : list Z) (st : State) :
  Forall Int64 keys →
  load_books_by_author keys st =
  (Returned ((fun k => V_list (run_select (database st) (select_books_of k))) <$> keys),
   {| database := database st;
      executed := executed st ++ (select_books_of <$> keys);
      heap := heap st;
      pending := [] |}).
Proof.
  intros Hkeys.
  unfold load_books_by_author, async_with, in_session. simpl.
  rewrite M_bind_run, for_each_select_books by done. reflexivity.
Qed.






Lemma zip_keys_values {A B : Type} (f : A → B) (l : list A) :
  zip l (f <$> l) = (λ k, (k, f k)) <$> l.
Proof. induction l as [|x l IH]; simpl; [done|]. f_equal. exact IH. Qed.

Lemma dispatch_books_by_author (keys : list Z) (st : State) :
  Forall Int64 keys →
  (DataLoader.dispatch_batch books_by_author keys st).1 =
    Returned ((fun k => (k, Returned (V_list (run_select (database st) (select_books_of k)))))
                <$> keys) ∧
  executed (DataLoader.dispatch_batch books_by_author keys st).2 =
    executed st ++ (select_books_of <$> keys) ∧
  database (DataLoader.dispatch_batch books_by_author keys st).2 = database st.
Proof.
  intros Hkeys. destruct keys as [|k keys].
  - simpl. by rewrite app_nil_r.
  - unfold DataLoader.dispatch_batch. cbn [DataLoader.load_fn books_by_author].
    rewrite load_books_by_author_run by done.
    rewrite decide_True by (by rewrite length_fmap).
    cbn [fst snd executed database]. split; [|done].
    by rewrite <- list_fmap_compose, zip_keys_values.
Qed.

Lemma get_context_loaders (c : Z → bool) :
  get_context c !! "books_by_author" = Some books_by_author ∧
  get_context c !! "author_by_book" = Some (author_by_book c).
Proof. split; reflexivity. Qed.




(** ** Keys without a result *)

Lemma result_of_fmap (g : Z → outcome value) (keys : list Z) (k : Z) :
  k ∈ keys →
  DataLoader.result_of k ((fun k' => (k', g k')) <$> keys) = Some (g k).
Proof.
  unfold DataLoader.result_of.
  induction keys as [|x keys IH]; intros Hk.
  - by apply elem_of_nil in Hk.
  - simpl. destruct (Z.eqb_spec x k) as [->|Hne]; [done|].
    apply elem_of_cons in Hk as [->|Hk]; [done|]. by apply IH.
Qed.

Lemma filter_none {A : Type} (p : A → bool) (l : list A) :
  (∀ x, x ∈ l → p x = false) → List.filter p l = [].
Proof.
  induction l as [|x l IH]; intros Hp; simpl; [done|].
  rewrite (Hp x (list_elem_of_here _ _)).
  apply IH. intros y Hy. apply Hp. by apply list_elem_of_further.
Qed.

Lemma no_books_of (d : Database) (k : Z) :
  (∀ r, r ∈ books_table d → book_author_id r ≠ Some k) →
  run_select d (select_books_of k) = [].
Proof.
  intros Hno. unfold run_select. simpl.
  rewrite filter_none; [done|].
  intros r Hr. simpl. specialize (Hno r Hr).
  destruct (book_author_id r) as [k'|]; [|done].
  destruct (Z.eqb_spec k' k) as [->|]; done.
Qed.

(** X2. When the keys of a batch are keys the database can hold (signed, 64
    bits), the books loader gives the empty list to a key of the batch that
    no stored book refers to. *)
Lemma books_by_author_absent_key_empty (keys : list Z) (st : State) (k : Z) :
  Forall Int64 keys →
  k ∈ keys →
  (∀ r, r ∈ books_table (database st) → book_author_id r ≠ Some k) →
  ∃ results,
    (DataLoader.dispatch_batch books_by_author keys st).1 = Returned results ∧
    DataLoader.result_of k results = Some (Returned (V_list [])).
Proof.
  intros Hkeys Hk Hno.
  destruct (dispatch_books_by_author keys st Hkeys) as (Hres & _ & _).
  eexists. split; [exact Hres|].
  rewrite (result_of_fmap
             (fun k => Returned (V_list (run_select (database st) (select_books_of k))))
             keys k Hk).
  by rewrite no_books_of.
Qed.

(** What [load_author_by_book] returns: never the empty list, and nothing
    that depends on the keys beyond the one boolean. *)
Lemma load_author_by_book_run (c : Z → bool) (keys : list Z) (st : State) :
  (load_author_by_book c keys st).1 =
  Returned (match run_select (database st) (select_authors_where (id_in c keys)) with
            | [] => [V_list []]
            | o :: os => V_obj <$> o :: os
            end).
Proof.
  unfold load_author_by_book, async_with, in_session. simpl.
  run_M.
  fold (select_authors_where (id_in c keys)).
  by destruct (run_select (database st) (select_authors_where (id_in c keys))).
Qed.

Lemma no_authors_where_false (d : Database) :
  run_select d (select_authors_where false) = [].
Proof. unfold run_select. simpl. by rewrite filter_none. Qed.

(** With one key in the batch the author loader resolves it to [[]]. *)
Lemma author_by_book_one_key (c : Z → bool) (k : Z) (st : State) :
  c k = false →
  (DataLoader.dispatch_batch (author_by_book c) [k] st).1
    = Returned [(k, Returned (V_list []))].
Proof.
  intros Hc. unfold DataLoader.dispatch_batch.
  cbn [DataLoader.load_fn author_by_book].
  pose proof (load_author_by_book_run c [k] st) as Hrun.
  destruct (load_author_by_book c [k] st) as [o st']. cbn [fst] in Hrun. subst o.
  assert (id_in c [k] = false) as -> by (simpl; by rewrite Hc).
  rewrite no_authors_where_false. reflexivity.
Qed.

(** X13. With more keys, and no key Python takes for equal to the column,
    every future of the batch fails: the list returned has one element. *)
Lemma author_by_book_fails_beyond_one_key (c : Z → bool) (keys : list Z) (st : State) :
  id_in c keys = false →
  (1 < length keys)%nat →
  (DataLoader.dispatch_batch (author_by_book c) keys st).1
    = Returned ((fun k => (k, Raised (WrongNumberOfResultsReturned (length keys) 1)))
                  <$> keys).
Proof.
  intros Hc Hlen. unfold DataLoader.dispatch_batch.
  destruct keys as [|k keys]; [simpl in Hlen; lia|].
  cbn [DataLoader.load_fn author_by_book].
  pose proof (load_author_by_book_run c (k :: keys) st) as Hrun.
  destruct (load_author_by_book c (k :: keys) st) as [o st']. cbn [fst] in Hrun. subst o.
  rewrite Hc, no_authors_where_false.
  rewrite decide_False; [done|]. simpl in *. lia.
Qed.

(** C4, at the code: two keys asked of the author loader in one window, on
    an empty catalog. Whatever truth value Python gives the comparisons,
    [load_author_by_book] returns the one-element list [[[]]] for the two
    keys, and both futures fail with [WrongNumberOfResultsReturned]: neither
    resolves to an empty value. *)
Theorem author_by_book_two_keys_fail (c : Z → bool) :
  (load_author_by_book c [1; 2] (new_request empty_database)).1
    = Returned [V_list []] ∧
  (DataLoader.dispatch_batch (author_by_book c) (DataLoader.batch_of [1; 2])
     (new_request empty_database)).1
    = Returned [(1, Raised (WrongNumberOfResultsReturned 2 1));
                (2, Raised (WrongNumberOfResultsReturned 2 1))].
Proof.
  assert ((load_author_by_book c [1; 2] (new_request empty_database)).1
            = Returned [V_list []]) as Hload.
  { rewrite load_author_by_book_run. reflexivity. }
  split; [exact Hload|].
  change (DataLoader.batch_of [1; 2]) with [1; 2].
  unfold DataLoader.dispatch_batch. cbn [DataLoader.load_fn author_by_book].
  destruct (load_author_by_book c [1; 2] (new_request empty_database)) as [o st'].
  cbn [fst] in Hload. subst o. reflexivity.
Qed.

(** ** The [authors] query *)

Lemma filter_all {A : Type} (l : list A) : List.filter (fun _ => true) l = l.
Proof. induction l as [|x l IH]; simpl; [done|]. by rewrite IH. Qed.

Lemma for_each_marshal_authors (rows : list AuthorRow) (st : State) :
  for_each (fun author => lift (Author.marshal (Some author)))
    ((fun r => models.Obj_Author (load_Author r)) <$> rows) st
  = (Returned ((fun r => {| Author.id := str (Some (author_pk r));
                            Author.name := author_name r |}) <$> rows), st).
Proof.
  induction rows as [|r rows IH]; [done|].
  cbn [fmap list_fmap for_each].
  rewrite M_bind_run. cbn [lift]. rewrite Author_marshal_object.
  rewrite M_bind_run, IH. reflexivity.
Qed.

Lemma authors_run (st : State) :
  Query.authors st =
  (Returned ((fun r => {| Author.id := str (Some (author_pk r));
                          Author.name := author_name r |})
               <$> merge_sort author_row_le (authors_table (database st))),
   {| database := database st;
      executed := executed st ++ [order_by_name
                    {| entity := Class_Author; whereclause := None; by_name := false |}];
      heap := heap st;
      pending := [] |}).
Proof.
  unfold Query.authors, async_with, in_session. simpl.
  rewrite M_bind_run. cbn [lift].
  rewrite M_bind_run. unfold execute at 1. cbn [database set_pending].
  unfold run_select. simpl.
  rewrite for_each_marshal_authors, filter_all. reflexivity.
Qed.

(** X1. [authors] returns the API Author of every stored author, each once
    (the list is a rearrangement of the marshalled rows, ids included), in
    ascending order of name, having executed one SELECT and changed no
    table. *)
Theorem authors_sorted_by_name (st : State) :
  ∃ l,
    (Query.authors st).1 = Returned l ∧
    l ≡ₚ api_author <$> authors_table (database st) ∧
    Sorted name_le (Author.name <$> l) ∧
    Author.name <$> l ≡ₚ catalog_names st ∧
    length (executed (Query.authors st).2) = S (length (executed st)) ∧
    database (Query.authors st).2 = database st.
Proof.
  rewrite authors_run.
  exists (api_author <$> merge_sort author_row_le (authors_table (database st))).
  split; [reflexivity|].
  split; [apply fmap_Permutation, merge_sort_Permutation|].
  rewrite <- list_fmap_compose.
  split; [|split; [|split]].
  - apply (Sorted_fmap _ author_row_le); [done|].
    apply Sorted_merge_sort. apply _.
  - unfold catalog_names. apply fmap_Permutation.
    apply merge_sort_Permutation.
  - simpl. rewrite length_app. simpl. lia.
  - reflexivity.
Qed.

(** ** Worked batches *)

(** The keys 1 and 2 asked of the books loader when only author 1 has a
    book: key 2 resolves to the empty list. *)
Lemma books_by_author_absent_key_empty_witness :
  ∃ results,
    (DataLoader.dispatch_batch books_by_author [1; 2]
       (new_request tolkien_database)).1 = Returned results ∧
    DataLoader.result_of 2 results = Some (Returned (V_list [])).
Proof.
  apply (books_by_author_absent_key_empty [1; 2] (new_request tolkien_database) 2).
  - repeat constructor; unfold Int64; lia.
  - apply list_elem_of_further, list_elem_of_here.
  - intros r Hr. simpl in Hr. apply list_elem_of_singleton in Hr. by subst r.
Defined.

(** The same two keys asked of the author loader. *)
Lemma author_by_book_fails_beyond_one_key_witness :
  (DataLoader.dispatch_batch (author_by_book (fun _ => false)) [1; 2]
     (new_request tolkien_database)).1
  = Returned [(1, Raised (WrongNumberOfResultsReturned 2 1));
              (2, Raised (WrongNumberOfResultsReturned 2 1))].
Proof.
  apply (author_by_book_fails_beyond_one_key (fun _ => false) [1; 2]
           (new_request tolkien_database)).
  - reflexivity.
  - simpl. lia.
Defined.

(** ** Identifiers of the API *)

Lemma to_int_not_nil (z : Z) :
  Z.to_int z ≠ Decimal.Pos Decimal.Nil ∧ Z.to_int z ≠ Decimal.Neg Decimal.Nil.
Proof.
  destruct z as [|p|p]; simpl; split; try discriminate;
    intros [= H]; by apply DecimalPos.Unsigned.to_uint_nonnil in H.
Qed.

(** [int(str(z))] is [z]. *)
Lemma str_parses (z : Z) :
  Z.of_int <$> NilZero.int_of_string (str (Some z)) = Some z.
Proof.
  unfold str. destruct (to_int_not_nil z) as [H1 H2].
  rewrite NilZero.isi by done. simpl. by rewrite DecimalZ.of_to.
Qed.

Lemma str_inj (z z' : Z) : str (Some z) = str (Some z') → z = z'.
Proof.
  intros H.
  pose proof (str_parses z) as H1. pose proof (str_parses z') as H2.
  rewrite H in H1. rewrite H1 in H2. by injection H2.
Qed.

(** X3. The API Author of a stored author carries the stored name, and an id
    that reads back, as a decimal number, as the stored key; so two stored
    authors with the same API id have the same key. *)
Theorem Author_marshal_id_roundtrip (r r' : AuthorRow) :
  (∃ a, Author.marshal (Some (models.Obj_Author (load_Author r))) = Returned a ∧
        Author.name a = author_name r ∧
        Z.of_int <$> NilZero.int_of_string (Author.id a) = Some (author_pk r)) ∧
  (∀ a a',
     Author.marshal (Some (models.Obj_Author (load_Author r))) = Returned a →
     Author.marshal (Some (models.Obj_Author (load_Author r'))) = Returned a' →
     Author.id a = Author.id a' → author_pk r = author_pk r').
Proof.
  split.
  - eexists. rewrite Author_marshal_object. split; [done|]. split; [done|].
    apply str_parses.
  - intros a a'. rewrite !Author_marshal_object. intros [= <-] [= <-].
    intros Hid. apply str_inj. exact Hid.
Qed.

Lemma find_author_Some (d : Database) (k : Z) (a : AuthorRow) :
  find_author d k = Some a → a ∈ authors_table d ∧ author_pk a = k.
Proof.
  unfold find_author. intros H. apply find_some in H as [Hin Hk].
  split; [by apply list_elem_of_In|]. by apply Z.eqb_eq.
Qed.

Lemma find_author_None (d : Database) (k : Z) :
  find_author d k = None → ∀ a, a ∈ authors_table d → author_pk a ≠ k.
Proof.
  unfold find_author. intros H a Ha%list_elem_of_In.
  pose proof (find_none _ _ H a Ha) as Hk. simpl in Hk.
  by apply Z.eqb_neq.
Qed.

(** X4. A stored book, loaded with its joined author and marshalled, gives
    the API Book with the row's key and name; its author field is [None]
    exactly when no stored author has the row's [author_id] as key (a NULL
    included), and otherwise it is what [Author.marshal] returns for a
    stored author with that key. *)
Theorem Book_marshal_loaded (d : Database) (r : BookRow) :
  ∃ b,
    Book.marshal (Some (models.Obj_Book (load_Book d r))) = Returned b ∧
    Book.id b = str (Some (book_pk r)) ∧
    Book.name b = book_name r ∧
    (Book.author b = None ↔
     ∀ a, a ∈ authors_table d → Some (author_pk a) ≠ book_author_id r) ∧
    (∀ x, Book.author b = Some x →
       ∃ a, a ∈ authors_table d ∧ Some (author_pk a) = book_author_id r ∧
            Author.marshal (Some (models.Obj_Author (load_Author a))) = Returned x).
Proof.
  eexists. rewrite Book_marshal_object. split; [reflexivity|].
  split; [done|]. split; [done|]. simpl.
  destruct (book_author_id r) as [k|]; simpl.
  - destruct (find_author d k) as [a|] eqn:Hfind; simpl.
    + apply find_author_Some in Hfind as [Hin Hk]. split.
      * split; [done|]. intros Hno. destruct (Hno a Hin). by rewrite Hk.
      * intros x [= <-]. exists a. split; [done|]. split; [by rewrite Hk|].
        reflexivity.
    + split; [|done]. split; [|done]. intros _ a Ha [= Hk].
      by apply (find_author_None d k Hfind a Ha).
  - split; [|done]. split; [|done]. by intros _ a Ha.
Qed.

(** ** What the books batch function returns *)

Lemma filter_bool_Prop {A : Type} (p : A → bool) (P : A → Prop)
    `{!∀ x, Decision (P x)} (l : list A) :
  (∀ x, p x = true ↔ P x) → List.filter p l = filter P l.
Proof.
  intros Hp. induction l as [|x l IH]; [done|]. simpl.
  destruct (p x) eqn:Hx.
  - rewrite filter_cons_True by (by apply Hp). by rewrite IH.
  - rewrite filter_cons_False; [done|].
    intros HP. apply Hp in HP. congruence.
Qed.

Lemma books_of_author_select (d : Database) (k : Z) :
  run_select d (select_books_of k) =
  (fun r => models.Obj_Book (load_Book d r)) <$> books_of_author d k.
Proof.
  unfold run_select, books_of_author. simpl. f_equal.
  apply filter_bool_Prop. intros r. simpl.
  destruct (book_author_id r) as [k'|]; [|done].
  rewrite Z.eqb_eq. split; [by intros ->|by intros [= ->]].
Qed.

(** X5. For keys the database can hold (signed, 64 bits),
    [load_books_by_author] returns one list per key, in the order of the
    keys (none for no key); the list at the position of a key is a
    rearrangement of the stored books whose [author_id] is that key, each
    of them once and nothing else; and the tables are left as they were. *)
Theorem load_books_by_author_exact (keys : list Z) (st : State) :
  Forall Int64 keys →
  ∃ data,
    (load_books_by_author keys st).1 = Returned data ∧
    length data = length keys ∧
    (∀ i k, keys !! i = Some k →
       ∃ bs, data !! i = Some (V_list bs) ∧
             bs ≡ₚ (fun r => models.Obj_Book (load_Book (database st) r))
                     <$> books_of_author (database st) k) ∧
    database (load_books_by_author keys st).2 = database st.
Proof.
  intros Hkeys. rewrite load_books_by_author_run by done.
  eexists. split; [reflexivity|].
  split; [by rewrite length_fmap|]. split; [|done].
  intros i k Hi. eexists. split.
  - rewrite list_lookup_fmap, Hi. reflexivity.
  - by rewrite books_of_author_select.
Qed.

(** The keys 1 and 2 when author 1 has the one stored book. *)
Lemma load_books_by_author_exact_witness :
  ∃ data,
    (load_books_by_author [1; 2] (new_request tolkien_database)).1 = Returned data ∧
    length data = 2%nat ∧
    (∀ i k, [1; 2] !! i = Some k →
       ∃ bs, data !! i = Some (V_list bs) ∧
             bs ≡ₚ (fun r => models.Obj_Book (load_Book tolkien_database r))
                     <$> books_of_author tolkien_database k) ∧
    database (load_books_by_author [1; 2] (new_request tolkien_database)).2
      = tolkien_database.
Proof.
  apply (load_books_by_author_exact [1; 2] (new_request tolkien_database)).
  repeat constructor; unfold Int64; lia.
Defined.

(** X14. [load_books_by_author] raises [OverflowError] exactly when one of
    its keys is not a signed 64-bit integer, and returns one list per key
    otherwise; either way the tables are left as they were. *)
Theorem load_books_by_author_overflow (keys : list Z) (st : State) :
  ((load_books_by_author keys st).1 = Raised OverflowError ↔ ¬ Forall Int64 keys) ∧
  ((∃ data, (load_books_by_author keys st).1 = Returned data ∧
            length data = length keys) ↔ Forall Int64 keys) ∧
  database (load_books_by_author keys st).2 = database st.
Proof.
  destruct (decide (Forall Int64 keys)) as [Hkeys|Hkeys].
  - rewrite load_books_by_author_run by done. cbn [fst snd database].
    split; [split; [done|by intros ?]|].
    split; [|done]. split; [done|]. intros _. eexists.
    split; [reflexivity|]. by rewrite length_fmap.
  - destruct (for_each_select_books_overflow keys (set_pending [] st) Hkeys)
      as (st' & Hrun & Hdb).
    assert (load_books_by_author keys st
              = (Raised OverflowError, set_pending [] st')) as ->.
    { unfold load_books_by_author, async_with, in_session.
      cbn [models.get_session has_aenter]. cbv zeta.
      by rewrite M_bind_run, Hrun. }
    cbn [fst snd]. split; [done|]. split; [|exact Hdb].
    split; [by intros (data & [=] & _)|by intros ?].
Qed.

(** ** [add_author], called again and read back *)

Lemma add_author_present (name : string) (st : State) :
  name ∈ catalog_names st →
  Mutation.add_author name st =
  (Returned AuthorExists,
   {| database := database st;
      executed := executed st ++ [select_author_named name];
      heap := heap st; pending := [] |}).
Proof.
  intros Hin. rewrite add_author_run. simpl.
  destruct (List.find (author_named name) (authors_table (database st)))
    as [r|] eqn:Hfind; [done|].
  apply list_elem_of_fmap in Hin as (r & -> & Hr).
  destruct (proj2 (find_author_named_Some (author_name r)
                     (authors_table (database st)))) as [? Hs]; [eauto|].
  congruence.
Qed.

Lemma add_author_stores_name (name : string) (st : State) :
  name ∈ catalog_names (Mutation.add_author name st).2.
Proof.
  rewrite catalog_names_add_author.
  destruct (decide (name ∈ catalog_names st)); [done|].
  apply elem_of_app. right. apply list_elem_of_here.
Qed.

(** X6. A second [add_author] of the same name, right after the first,
    answers [AuthorExists] and leaves the tables as the first call left
    them, whatever the first call answered. *)
Theorem add_author_twice (name : string) (st : State) :
  (Mutation.add_author name (Mutation.add_author name st).2).1
    = Returned AuthorExists ∧
  database (Mutation.add_author name (Mutation.add_author name st).2).2
    = database (Mutation.add_author name st).2.
Proof.
  rewrite (add_author_present name (Mutation.add_author name st).2
             (add_author_stores_name name st)).
  done.
Qed.

Lemma add_author_returns_row (name : string) (st : State) (x : Author.t) :
  (Mutation.add_author name st).1 = Returned (AddAuthor_Author x) →
  ∃ r, r ∈ authors_table (database (Mutation.add_author name st).2) ∧
       x = api_author r.
Proof.
  rewrite add_author_run. simpl.
  destruct (List.find (author_named name) (authors_table (database st)));
    [done|].
  simpl. intros [= <-].
  exists {| author_pk := next_pk (author_pk <$> authors_table (database st));
            author_name := name |}.
  split; [|done]. apply elem_of_app. right. apply list_elem_of_here.
Qed.

(** X7. After [add_author name], whatever it answered, [authors] lists an
    author with that name; and when it answered with a new Author, [authors]
    lists that very Author, id included. *)
Theorem add_author_then_authors (name : string) (st : State) :
  ∃ l,
    (Query.authors (Mutation.add_author name st).2).1 = Returned l ∧
    (∃ a, a ∈ l ∧ Author.name a = name) ∧
    (∀ x, (Mutation.add_author name st).1 = Returned (AddAuthor_Author x) → x ∈ l).
Proof.
  pose proof (add_author_stores_name name st) as Hin.
  apply list_elem_of_fmap in Hin as (r & Hname & Hr).
  pose proof (add_author_returns_row name st) as Hrow.
  set (st1 := (Mutation.add_author name st).2) in *.
  exists (api_author <$> merge_sort author_row_le (authors_table (database st1))).
  split; [by rewrite authors_run|]. split.
  - exists (api_author r). split; [|done].
    apply list_elem_of_fmap. exists r. split; [done|].
    by rewrite merge_sort_Permutation.
  - intros x Hx. destruct (Hrow x Hx) as (r' & Hr' & ->).
    apply list_elem_of_fmap. exists r'. split; [done|].
    by rewrite merge_sort_Permutation.
Qed.

(** ** Sequences of operations *)

(** What one operation does to the tables: [add_author] of a name not stored
    yet appends one row, and nothing else changes anything. *)
Lemma perform_database (st : State) (op : operation) :
  database (perform st op) = database st ∨
  ∃ name,
    op = Op_add_author name ∧ (name ∉ catalog_names st) ∧
    database (perform st op) =
      {| authors_table := authors_table (database st) ++
           [{| author_pk := next_pk (catalog_keys st); author_name := name |}];
         books_table := books_table (database st) |}.
Proof.
  destruct op as [| |name|name author_name]; simpl.
  - by left.
  - left. by rewrite authors_run.
  - rewrite add_author_run. simpl.
    pose proof (find_author_named_Some name (authors_table (database st))) as Hfind.
    destruct (List.find (author_named name) (authors_table (database st)));
      simpl; [by left|].
    right. exists name. split; [done|]. split; [|done].
    intros (r & -> & Hr)%list_elem_of_fmap.
    destruct (proj2 Hfind) as [? ?]; [eauto|done].
  - by left.
Qed.

Lemma perform_executed (st : State) (op : operation) :
  executed st `prefix_of` executed (perform st op).
Proof.
  destruct op as [| |name|name author_name]; simpl.
  - done.
  - rewrite authors_run. simpl. by apply prefix_app_r.
  - rewrite add_author_run. simpl.
    destruct (List.find _ _); simpl; by apply prefix_app_r.
  - done.
Qed.

(** X8. Over any sequence of [books], [authors], [add_author] and
    [add_book] operations no stored row is removed or altered: the authors
    stored before are the first rows of the authors table after, in the same
    order, the books table is as it was, and the statements executed before
    are the first of those executed after. *)
Theorem operations_keep_rows (ops : list operation) (st : State) :
  authors_table (database st)
    `prefix_of` authors_table (database (perform_all ops st)) ∧
  books_table (database (perform_all ops st)) = books_table (database st) ∧
  executed st `prefix_of` executed (perform_all ops st).
Proof.
  revert st. induction ops as [|op ops IH]; intros st; [done|].
  unfold perform_all in *. simpl.
  destruct (IH (perform st op)) as (IH1 & IH2 & IH3).
  pose proof (perform_executed st op) as Hex.
  destruct (perform_database st op) as [Hdb|(name & _ & _ & Hdb)];
    rewrite Hdb in IH1, IH2.
  - split; [done|]. split; [done|]. by etrans.
  - simpl in IH1, IH2. split; [|split; [done|by etrans]].
    etrans; [|exact IH1]. by apply prefix_app_r.
Qed.

Lemma perform_distinct (st : State) (op : operation) :
  NoDup (catalog_names st) → NoDup (catalog_keys st) →
  NoDup (catalog_names (perform st op)) ∧ NoDup (catalog_keys (perform st op)).
Proof.
  intros Hn Hk. unfold catalog_names, catalog_keys in *.
  destruct (perform_database st op) as [->|(name & _ & Hnew & ->)]; [done|].
  simpl. rewrite !fmap_app. simpl. split.
  - apply NoDup_app. split; [done|]. split; [|apply NoDup_singleton].
    intros x Hx ->%list_elem_of_singleton. done.
  - apply NoDup_app. split; [done|]. split; [|apply NoDup_singleton].
    intros x Hx ->%list_elem_of_singleton.
    apply next_pk_fresh in Hx. unfold catalog_keys in Hx. lia.
Qed.

(** X9. When the stored authors have pairwise distinct names and pairwise
    distinct keys, they still have after any sequence of operations. *)
Theorem operations_keep_authors_distinct (ops : list operation) (st : State) :
  NoDup (catalog_names st) → NoDup (catalog_keys st) →
  NoDup (catalog_names (perform_all ops st)) ∧
  NoDup (catalog_keys (perform_all ops st)).
Proof.
  revert st. induction ops as [|op ops IH]; intros st Hn Hk; [done|].
  unfold perform_all in *. simpl.
  destruct (perform_distinct st op Hn Hk) as [Hn' Hk'].
  by apply IH.
Qed.

(** From the schema as [_async_main] leaves it: the same name added twice
    around the other operations. *)
Lemma operations_keep_authors_distinct_witness :
  NoDup (catalog_names (perform_all
           [Op_add_author "Tolkien"; Op_books; Op_add_author "Tolkien";
            Op_add_book "Hobbit" (Some "Tolkien"); Op_add_author "Adams";
            Op_authors]
           (new_request (_async_main tolkien_database)))) ∧
  NoDup (catalog_keys (perform_all
           [Op_add_author "Tolkien"; Op_books; Op_add_author "Tolkien";
            Op_add_book "Hobbit" (Some "Tolkien"); Op_add_author "Adams";
            Op_authors]
           (new_request (_async_main tolkien_database)))).
Proof.
  apply (operations_keep_authors_distinct
           [Op_add_author "Tolkien"; Op_books; Op_add_author "Tolkien";
            Op_add_book "Hobbit" (Some "Tolkien"); Op_add_author "Adams";
            Op_authors]
           (new_request (_async_main tolkien_database))).
  - apply NoDup_nil_2.
  - apply NoDup_nil_2.
Defined.

(** ** The block of [add_book], branch by branch *)

Lemma truthy_str_false (author_name : option string) :
  truthy_str author_name = false ↔ author_name = None ∨ author_name = Some "".
Proof.
  destruct author_name as [s|]; simpl.
  - destruct (String.eqb_spec s "") as [->|Hne]; simpl.
    + split; [by right|done].
    + split; [done|]. intros [|[= ->]]; done.
  - split; [by left|done].
Qed.

(** X10. In the block of [add_book], run in a session, the test of
    [author_name] comes first: the block returns [AuthorNameMissing] exactly
    when [author_name] is [None] or empty, and then executes no statement;
    it returns [AuthorNotFound] exactly when [author_name] is a non-empty
    name no stored author has, after the one SELECT by that name. *)
Theorem add_book_block_failures (name : string) (author_name : option string)
    (st : State) :
  ((in_session (Mutation.add_book_block name author_name) st).1
     = Returned (Return_ AuthorNameMissing)
   ↔ author_name = None ∨ author_name = Some "") ∧
  (author_name = None ∨ author_name = Some "" →
   executed (in_session (Mutation.add_book_block name author_name) st).2
     = executed st) ∧
  ((in_session (Mutation.add_book_block name author_name) st).1
     = Returned (Return_ AuthorNotFound)
   ↔ ∃ s, author_name = Some s ∧ s ≠ "" ∧ (s ∉ catalog_names st)) ∧
  (∀ s, author_name = Some s → s ≠ "" →
   executed (in_session (Mutation.add_book_block name author_name) st).2
     = executed st ++ [select_author_named s]).
Proof.
  pose proof (truthy_str_false author_name) as Htr.
  unfold in_session, Mutation.add_book_block.
  destruct (truthy_str author_name) eqn:Ht; simpl.
  - assert (∃ s, author_name = Some s ∧ s ≠ "") as (s & -> & Hs).
    { destruct author_name as [s|]; [|done]. exists s. split; [done|].
      intros ->. by destruct (proj2 Htr (or_intror eq_refl)). }
    run_M. unfold run_select. simpl. rewrite first_fmap_filter.
    fold (author_named s).
    pose proof (find_author_named_Some s (authors_table (database st))) as Hfind.
    destruct (List.find (author_named s) (authors_table (database st)))
      as [r|]; simpl.
    + unfold s_commit. simpl. unfold flush_object. simpl.
      rewrite heap_lookup_new. simpl.
      split; [split; [done|intros [|[= ->]]; done]|].
      split; [intros [|[= ->]]; done|].
      split; [|by intros ? [= <-]].
      split; [done|]. intros (s' & [= <-] & _ & Hno).
      destruct (proj1 Hfind) as (r0 & Hr0 & <-); [by eexists|].
      destruct Hno. apply list_elem_of_fmap. eauto.
    + split; [split; [done|intros [|[= ->]]; done]|].
      split; [intros [|[= ->]]; done|].
      split; [|by intros ? [= <-]].
      split; [|done]. intros _. exists s. split; [done|]. split; [done|].
      intros (r0 & -> & Hr0)%list_elem_of_fmap.
      destruct (proj2 Hfind) as [? ?]; [eauto|done].
  - pose proof (proj1 Htr eq_refl) as Hmiss.
    split; [done|]. split; [done|].
    split.
    + split; [done|]. intros (s & -> & Hs & _). by destruct Hmiss as [|[= ->]].
    + intros s -> Hs. by destruct Hmiss as [|[= ->]].
Qed.

(** ** What the author batch function returns *)

Lemma all_authors_where_true (d : Database) :
  run_select d (select_authors_where true) =
  (fun r => models.Obj_Author (load_Author r)) <$> authors_table d.
Proof. unfold run_select. simpl. by rewrite filter_all. Qed.

(** X11. [load_author_by_book] executes one SELECT, whose criterion is the
    truth value Python gives [models.Author.id in keys], and reads the keys
    for nothing else: when that value is true and authors are stored it
    returns all of them, whatever the keys, and otherwise the one-element
    list [[[]]]; it never returns the empty list and never changes the
    tables. *)
Theorem load_author_by_book_exact (c : Z → bool) (keys : list Z) (st : State) :
  (load_author_by_book c keys st).1 =
    Returned (if id_in c keys
              then match authors_table (database st) with
                   | [] => [V_list []]
                   | rows => (fun r => V_obj (models.Obj_Author (load_Author r))) <$> rows
                   end
              else [V_list []]) ∧
  (load_author_by_book c keys st).1 ≠ Returned [] ∧
  executed (load_author_by_book c keys st).2
    = executed st ++ [select_authors_where (id_in c keys)] ∧
  database (load_author_by_book c keys st).2 = database st.
Proof.
  assert ((load_author_by_book c keys st).1 =
    Returned (if id_in c keys
              then match authors_table (database st) with
                   | [] => [V_list []]
                   | rows => (fun r => V_obj (models.Obj_Author (load_Author r))) <$> rows
                   end
              else [V_list []])) as Hrun.
  { rewrite load_author_by_book_run.
    destruct (id_in c keys).
    - rewrite all_authors_where_true.
      destruct (authors_table (database st)) as [|r rows]; [done|].
      cbn [fmap list_fmap]. do 3 f_equal. by rewrite <- list_fmap_compose.
    - by rewrite no_authors_where_false. }
  split; [exact Hrun|]. split.
  - rewrite Hrun. destruct (id_in c keys); [|done].
    by destruct (authors_table (database st)).
  - split; reflexivity.
Qed.

(** ** After [_async_main] *)

(** X12. [_async_main] leaves both tables empty whatever they held, and
    running it again changes nothing; on the schema it leaves, [authors]
    returns the empty list, [add_author] accepts every name, and [authors]
    then returns exactly the Author [add_author] answered with. *)
Theorem async_main_then_add_author (d : Database) (name : string) :
  authors_table (_async_main d) = [] ∧
  books_table (_async_main d) = [] ∧
  _async_main (_async_main d) = _async_main d ∧
  (Query.authors (new_request (_async_main d))).1 = Returned [] ∧
  ∃ a,
    (Mutation.add_author name (new_request (_async_main d))).1
      = Returned (AddAuthor_Author a) ∧
    Author.name a = name ∧
    (Query.authors (Mutation.add_author name (new_request (_async_main d))).2).1
      = Returned [a].
Proof.
  split; [done|]. split; [done|]. split; [done|]. split; [done|].
  eexists. split; [reflexivity|]. split; reflexivity.
Qed.
